(** * generate_icon.py: the LAMA icon generator

    A shallow embedding of [assets/generate_icon.py].  The script is one
    straight-line sequence of calls into Pillow and [os]; it is embedded as a
    program in a state-and-exception monad over a world made of
    - the Python object store holding the images ([img], and each [resized]),
    - the file system the script writes to,
    - the lines printed on standard output,
    - the font files Pillow can open on the running system (read only).

    Pillow's rasteriser is not part of the repository.  An image is therefore
    represented by its mode, its dimensions and the calls that produced its
    pixels: the colour it was created with or the image it was resampled
    from, and the drawing calls applied to it since, oldest first.  Two images
    that are equal in this representation hold the same pixels. *)

From Stdlib Require Import ZArith Ascii.
From stdpp Require Import gmap strings list fin_maps pretty.

Local Open Scope string_scope.
Local Open Scope Z_scope.

(** ** Values *)

Definition rgba : Type := Z * Z * Z * Z.

Inductive resampling : Type := NEAREST | BOX | BILINEAR | HAMMING | BICUBIC | LANCZOS.

(** A font is either a FreeType face opened from a font file at a point size,
    or the font [ImageFont.load_default()] returns. *)
Inductive font : Type :=
  | FreeTypeFont (face : string) (points : Z)
  | DefaultFont.

Inductive draw_op : Type :=
  | Ellipse (box : Z * Z * Z * Z) (fill outline : rgba) (width : Z)
  | Text (xy : Z * Z) (text : string) (fill : rgba) (fnt : font) (anchor : string).

Inductive image : Type :=
  | Raster (mode : string) (width height : Z) (origin : pixels) (drawn : list draw_op)
with pixels : Type :=
  | Solid (color : rgba)
  | Resample (source : image) (filter : resampling).

Definition im_mode (im : image) : string := let 'Raster m _ _ _ _ := im in m.
Definition im_size (im : image) : Z * Z := let 'Raster _ w h _ _ := im in (w, h).
Definition im_drawn (im : image) : list draw_op := let 'Raster _ _ _ _ d := im in d.

Definition im_draw (op : draw_op) (im : image) : image :=
  let 'Raster m w h o d := im in Raster m w h o (d ++ [op]).

(** ** The world *)

(** The content of a file: the PNG encoding of an image, or anything else.
    Pillow's PNG encoder is a function of the image alone (it writes no date
    and nothing of its surroundings), so equal images stand for equal bytes. *)
Inductive content : Type :=
  | PNG (im : image)
  | Blob (data : string).

Inductive node : Type :=
  | Dir
  | File (c : content).

(** References into the object store. *)
Abbreviation loc := nat.

Record world : Type := World {
  fonts : string → option string;
  heap : gmap nat image;
  fs : gmap string node;
  stdout : list string
}.

Definition set_heap (h : gmap nat image) (w : world) : world :=
  World (fonts w) h (fs w) (stdout w).
Definition set_fs (f : gmap string node) (w : world) : world :=
  World (fonts w) (heap w) f (stdout w).
Definition set_stdout (o : list string) (w : world) : world :=
  World (fonts w) (heap w) (fs w) o.

(** ** Exceptions and the monad of the script *)

(** [StaleReference] has no Python counterpart: it is what reading a
    reference the store does not hold gives, which a Python program cannot
    do, since an object lives as long as a name refers to it. *)
Inductive exn : Type :=
  | OSError
  | FileExistsError
  | FileNotFoundError
  | IsADirectoryError
  | ValueError
  | KeyError
  | StaleReference.

Inductive outcome (A : Type) : Type :=
  | Return (a : A) (w : world)
  | Raise (e : exn) (w : world).
Arguments Return {A} a w.
Arguments Raise {A} e w.

Definition M (A : Type) : Type := world → outcome A.

#[global] Instance M_ret : MRet M := λ A a w, Return a w.
#[global] Instance M_bind : MBind M := λ A B f c w,
  match c w with
  | Return a w' => f a w'
  | Raise e w' => Raise e w'
  end.

Definition raise {A} (e : exn) : M A := λ w, Raise e w.

(** [try: c except: h] with a bare [except], which catches everything. *)
Definition try_except {A} (c h : M A) : M A := λ w,
  match c w with
  | Return a w' => Return a w'
  | Raise _ w' => h w'
  end.

Fixpoint for_each {A} (xs : list A) (body : A → M unit) : M unit :=
  match xs with
  | [] => mret ()
  | x :: xs' => body x ;; for_each xs' body
  end.

Fixpoint enumerate_from {A} (i : Z) (xs : list A) : list (Z * A) :=
  match xs with
  | [] => []
  | x :: xs' => (i, x) :: enumerate_from (i + 1) xs'
  end.
Definition enumerate {A} (xs : list A) : list (Z * A) := enumerate_from 0 xs.

(** A new object: it gets a reference no object of the store has. *)
Definition alloc (im : image) : M loc := λ w,
  let l := fresh (dom (heap w)) in
  Return l (set_heap (<[l := im]> (heap w)) w).

Definition deref (l : loc) : M image := λ w,
  match heap w !! l with
  | Some im => Return im w
  | None => Raise StaleReference w
  end.

(** ** Python strings and integers *)

Definition len {A} (xs : list A) : Z := Z.of_nat (length xs).

(** [s[a:b]] for [0 <= a <= b]. *)
Definition slice (s : string) (a b : nat) : string := String.substring a (b - a) s.

Definition hex_digit (c : ascii) : option Z :=
  let n := Z.of_N (N_of_ascii c) in
  if (48 <=? n) && (n <=? 57) then Some (n - 48)
  else if (97 <=? n) && (n <=? 102) then Some (n - 87)
  else if (65 <=? n) && (n <=? 70) then Some (n - 55)
  else None.

Fixpoint hex_digits (acc : Z) (s : string) : option Z :=
  match s with
  | EmptyString => Some acc
  | String c s' =>
      match hex_digit c with
      | Some d => hex_digits (acc * 16 + d) s'
      | None => None
      end
  end.

(** [int(s, 16)] on a string of hexadecimal digits; anything else is a
    [ValueError] (the signs, prefixes and blanks [int] also accepts do not
    occur in a slice of the colour constants). *)
Definition int16 (s : string) : M Z :=
  match s with
  | EmptyString => raise ValueError
  | _ => match hex_digits 0 s with
         | Some n => mret n
         | None => raise ValueError
         end
  end.

(** [f'{n}'] for an integer. *)
Definition str (n : Z) : string := pretty n.

Definition print (line : string) : M unit := λ w,
  Return () (set_stdout (stdout w ++ [line]) w).

(** ** [os.path] (POSIX flavour) and [os] *)

Module os.
Module path.

Definition sep : ascii := "/"%char.

Definition is_sep (c : ascii) : bool := bool_decide (c = sep).

Fixpoint has_sep (p : string) : bool :=
  match p with
  | EmptyString => false
  | String c r => is_sep c || has_sep r
  end.

Fixpoint all_sep (p : string) : bool :=
  match p with
  | EmptyString => true
  | String c r => is_sep c && all_sep r
  end.

Fixpoint endswith_sep (p : string) : bool :=
  match p with
  | EmptyString => false
  | String c EmptyString => is_sep c
  | String _ r => endswith_sep r
  end.

(** [p[:p.rfind('/') + 1]] *)
Fixpoint head (p : string) : string :=
  match p with
  | EmptyString => EmptyString
  | String c r =>
      if has_sep r then String c (head r)
      else if is_sep c then String c EmptyString
      else EmptyString
  end.

(** [p.rstrip('/')] *)
Fixpoint rstrip (p : string) : string :=
  match p with
  | EmptyString => EmptyString
  | String c r =>
      let r' := rstrip r in
      if is_sep c && bool_decide (r' = EmptyString) then EmptyString
      else String c r'
  end.

(** [os.path.dirname(p)]: the head of [p], without its trailing separators
    unless it is made of separators only. *)
Definition dirname (p : string) : string :=
  let h := head p in
  if bool_decide (h ≠ EmptyString) && negb (all_sep h) then rstrip h else h.

(** [os.path.join(a, b)] *)
Definition join (a b : string) : string :=
  match b with
  | String c _ =>
      if is_sep c then b
      else if bool_decide (a = EmptyString) || endswith_sep a then a +:+ b
      else a +:+ String sep b
  | EmptyString =>
      if bool_decide (a = EmptyString) || endswith_sep a then a
      else a +:+ String sep EmptyString
  end.

End path.

Definition isdir (f : gmap string node) (p : string) : bool :=
  match f !! p with
  | Some Dir => true
  | _ => false
  end.

(** The directory a path is created in exists when it is the working
    directory (the empty head) or a directory of the file system. *)
Definition parent_exists (f : gmap string node) (p : string) : bool :=
  let d := path.dirname p in
  bool_decide (d = EmptyString) || isdir f d.

(** [os.makedirs(name, exist_ok=...)].  The script calls it on a child of
    the directory that holds the script itself, so the creation of missing
    ancestors is never reached and is not part of the model. *)
Definition makedirs (name : string) (exist_ok : bool) : M unit := λ w,
  match fs w !! name with
  | None => Return () (set_fs (<[name := Dir]> (fs w)) w)
  | Some Dir => if exist_ok then Return () w else Raise FileExistsError w
  | Some (File _) => Raise FileExistsError w
  end.

(** [open(p, 'w+b')] followed by the write of the whole content. *)
Definition write_file (p : string) (c : content) : M unit := λ w,
  if negb (parent_exists (fs w) p) then Raise FileNotFoundError w
  else match fs w !! p with
       | Some Dir => Raise IsADirectoryError w
       | _ => Return () (set_fs (<[p := File c]> (fs w)) w)
       end.

End os.

(** ** Pillow *)

Module ImageFont.

(** [ImageFont.truetype(p, points)]; [fonts w p] is the font file Pillow
    finds for [p], if any. *)
Definition truetype (p : string) (points : Z) : M font := λ w,
  match fonts w p with
  | Some face => Return (FreeTypeFont face points) w
  | None => Raise OSError w
  end.

Definition load_default : M font := mret DefaultFont.

End ImageFont.

Module Image.

(** [Image.new(mode, (width, height), color)] *)
Definition new (mode : string) (size : Z * Z) (color : rgba) : M loc :=
  let '(width, height) := size in
  if (width <? 0) || (height <? 0) then raise ValueError
  else alloc (Raster mode width height (Solid color) []).

(** [img.resize((width, height), filter)]: a new image object; [img] is
    only read. *)
Definition resize (img : loc) (size : Z * Z) (filter : resampling) : M loc :=
  let '(width, height) := size in
  im ← deref img;
  if (width <? 1) || (height <? 1) then raise ValueError
  else alloc (Raster (im_mode im) width height (Resample im filter) []).

(** [img.save(fp, format)]: opens [fp] for writing (creating or truncating
    the file), then encodes the image into it.  PNG is the one format the
    file system of the model has a content for. *)
Definition save (img : loc) (fp format : string) : M unit :=
  im ← deref img;
  if bool_decide (format = "PNG") then os.write_file fp (PNG im)
  else raise KeyError.

End Image.

Module ImageDraw.

(** [ImageDraw.Draw(img)]: a handle on the very object [img] names. *)
Record drawer : Type := Draw { target : loc }.

Definition draw (d : drawer) (op : draw_op) : M unit := λ w,
  match heap w !! target d with
  | Some im => Return () (set_heap (<[target d := im_draw op im]> (heap w)) w)
  | None => Raise StaleReference w
  end.

(** [draw.ellipse(box, fill=..., outline=..., width=...)] *)
Definition ellipse (d : drawer) (box : Z * Z * Z * Z) (fill outline : rgba) (width : Z)
  : M unit :=
  draw d (Ellipse box fill outline width).

(** [draw.text(xy, s, fill=..., font=..., anchor=...)] *)
Definition text (d : drawer) (xy : Z * Z) (s : string) (fill : rgba) (fnt : font)
    (anchor : string) : M unit :=
  draw d (Text xy s fill fnt anchor).

End ImageDraw.

(** ** The script *)

Definition size : Z := 1024.
Definition center : Z := size `div` 2.
Definition radius : Z := 450.

Definition letters : list (string * string) :=
  [ ("L", "#ef4444");
    ("A", "#eab308");
    ("M", "#22c55e");
    ("A", "#a855f7") ].

Definition letter_spacing : Z := 200.
Definition total_width : Z := letter_spacing * (len letters - 1).
Definition start_x : Z := center - total_width `div` 2.
Definition y_pos : Z := center - 20.

Definition sizes : list Z := [16; 32; 64; 128; 256; 512].

(** Lines 35-43. *)
Definition acquire_font : M font :=
  try_except (ImageFont.truetype "/System/Library/Fonts/Helvetica.ttc" 280)
    (try_except (ImageFont.truetype "/System/Library/Fonts/Avenir.ttc" 280)
       ImageFont.load_default).

(** [x] of line 53, for the letter of index [i]. *)
Definition letter_x (i : Z) : Z := start_x + i * letter_spacing.

(** The body of the loop of lines 52-63. *)
Definition draw_letter (draw : ImageDraw.drawer) (fnt : font)
    (entry : Z * (string * string)) : M unit :=
  let '(i, (letter, color)) := entry in
  let x := letter_x i in
  ImageDraw.text draw (x + 4, y_pos + 4) letter (0, 0, 0, 128) fnt "mm";;
  r ← int16 (slice color 1 3);
  g ← int16 (slice color 3 5);
  b ← int16 (slice color 5 7);
  ImageDraw.text draw (x, y_pos) letter (r, g, b, 255) fnt "mm".

(** Lines 12-63: the canvas, the backdrop circle and the four letters. *)
Definition paint : M loc :=
  img ← Image.new "RGBA" (size, size) (10, 10, 10, 255);
  let draw := ImageDraw.Draw img in
  ImageDraw.ellipse draw
    (center - radius, center - radius, center + radius, center + radius)
    (20, 20, 20, 255) (40, 40, 40, 255) 2;;
  fnt ← acquire_font;
  for_each (enumerate letters) (draw_letter draw fnt);;
  mret img.

(** [f'icon-{icon_size}.png'] *)
Definition icon_file_name (icon_size : Z) : string :=
  "icon-" +:+ str icon_size +:+ ".png".

(** The body of the loop of lines 75-77. *)
Definition export_size (img : loc) (output_dir : string) (icon_size : Z) : M unit :=
  resized ← Image.resize img (icon_size, icon_size) LANCZOS;
  Image.save resized (os.path.join output_dir (icon_file_name icon_size)) "PNG".

Definition output_dir (file : string) : string :=
  os.path.join (os.path.dirname file) "icons".

(** Lines 66-79: the directory, the base icon, the resized copies. *)
Definition export (file : string) (img : loc) : M unit :=
  os.makedirs (output_dir file) true;;
  let icon_path := os.path.join (output_dir file) "icon.png" in
  Image.save img icon_path "PNG";;
  for_each sizes (export_size img (output_dir file));;
  print ("Icons generated successfully in " +:+ output_dir file).

(** The whole script; [file] is its [__file__]. *)
Definition main (file : string) : M unit :=
  img ← paint;
  export file img.

(** A run starts with an empty object store and nothing printed. *)
Definition run (file : string) (fnts : string → option string) (f : gmap string node)
  : outcome unit :=
  main file (World fnts ∅ f []).

(** ** Observations used to state the properties *)

Module Observe.

(** [s] with the prefix [pre] taken off, when it starts with [pre]. *)
Fixpoint strip_prefix (pre s : string) : option string :=
  match pre, s with
  | EmptyString, _ => Some s
  | String a pre', String b s' =>
      if bool_decide (a = b) then strip_prefix pre' s' else None
  | String _ _, EmptyString => None
  end.

(** The name of a directory entry: not empty, no separator. *)
Definition is_name (n : string) : bool :=
  negb (bool_decide (n = EmptyString)) && negb (os.path.has_sep n).

(** The name under which path [p] is an entry of directory [d], if it is one. *)
Definition entry_name (d p : string) : option string :=
  match strip_prefix (os.path.join d "") p with
  | Some n => if is_name n then Some n else None
  | None => None
  end.




(** A [draw.text] call with its arguments. *)
Record text_call : Type := TextCall {
  at_xy : Z * Z;
  glyph : string;
  fill : rgba;
  in_font : font;
  anchored : string
}.

Definition as_text (op : draw_op) : option text_call :=
  match op with
  | Text xy s c fnt a => Some (TextCall xy s c fnt a)
  | Ellipse _ _ _ _ => None
  end.

(** The [draw.text] calls an image has received, oldest first. *)
Definition text_calls (im : image) : list text_call := omap as_text (im_drawn im).

(** Consecutive calls taken two by two: first and second of each pair. *)
Fixpoint pairs {A} (xs : list A) : list (A * A) :=
  match xs with
  | a :: b :: rest => (a, b) :: pairs rest
  | _ => []
  end.

(** The colour a ['#rrggbb'] constant stands for, fully opaque. *)
Definition hex_rgba (color : string) : option rgba :=
  r ← hex_digits 0 (slice color 1 3);
  g ← hex_digits 0 (slice color 3 5);
  b ← hex_digits 0 (slice color 5 7);
  Some (r, g, b, 255).

(** Opacity of an alpha value, in percent, rounded to the nearest integer. *)
Definition opacity_percent (alpha : Z) : Z := (alpha * 200 + 255) `div` 510.


End Observe.

(** The names of the files the script saves, in the order it saves them. *)
Definition icon_names : list string :=
  "icon.png" :: map icon_file_name sizes.


(** The font files the script tries, in order. *)
Definition candidates : list string :=
  [ "/System/Library/Fonts/Helvetica.ttc"; "/System/Library/Fonts/Avenir.ttc" ].

(** The chain of the specification: the candidates are tried in order, the
    first that opens is the font, and the built-in font is what remains when
    none does. *)
Fixpoint fallback_chain (env : string → option string) (candidates : list string)
    (points : Z) : font :=
  match candidates with
  | [] => DefaultFont
  | p :: rest =>
      match env p with
      | Some face => FreeTypeFont face points
      | None => fallback_chain env rest points
      end
  end.

(** A chain of three candidates, as the specification counts them: three
    distinct font files tried in order, the built-in font after the third. *)
Definition three_candidate_chain : Prop :=
  ∃ c1 c2 c3 points,
    NoDup [c1; c2; c3]
    ∧ ∀ w, acquire_font w = Return (fallback_chain (fonts w) [c1; c2; c3] points) w.

(** The canvas [paint] leaves behind when the letters are set in [fnt]. *)
Definition painted (fnt : font) : image :=
  Raster "RGBA" 1024 1024 (Solid (10, 10, 10, 255))
    [ Ellipse (62, 62, 962, 962) (20, 20, 20, 255) (40, 40, 40, 255) 2;
      Text (216, 496) "L" (0, 0, 0, 128) fnt "mm";
      Text (212, 492) "L" (239, 68, 68, 255) fnt "mm";
      Text (416, 496) "A" (0, 0, 0, 128) fnt "mm";
      Text (412, 492) "A" (234, 179, 8, 255) fnt "mm";
      Text (616, 496) "M" (0, 0, 0, 128) fnt "mm";
      Text (612, 492) "M" (34, 197, 94, 255) fnt "mm";
      Text (816, 496) "A" (0, 0, 0, 128) fnt "mm";
      Text (812, 492) "A" (168, 85, 247, 255) fnt "mm" ].

(** The copy [resize] makes of [base] at [n] by [n]. *)
Definition resized (base : image) (n : Z) : image :=
  Raster (im_mode base) n n (Resample base LANCZOS) [].

(** *** Sample systems *)

(** A place for the script. *)
Definition script_path : string := "/app/assets/generate_icon.py".

(** A system without any font file, and one on which every font file opens,
    the two of the script apart. *)
Definition no_fonts (p : string) : option string := None.

Definition all_but_candidates (p : string) : option string :=
  if bool_decide (p ∈ candidates) then None else Some p.

(** The output directory already there, empty; and with a file of another
    kind in it. *)
Definition icons_present : gmap string node := {[ "/app/assets/icons" := Dir ]}.


(** ** Further observations and sample systems *)


(** The value [int(s, 16)] returns, when it returns. *)
Definition int16_value (s : string) : option Z :=
  match s with
  | EmptyString => None
  | _ => hex_digits 0 s
  end.

(** The three channels lines 60-62 read out of a colour constant. *)
Definition channels (color : string) : option (Z * Z * Z) :=
  r ← int16_value (slice color 1 3);
  g ← int16_value (slice color 3 5);
  b ← int16_value (slice color 5 7);
  Some (r, g, b).


(** A world whose store holds one painted canvas. *)
Definition canvas_only : world :=
  World no_fonts {[ 0%nat := painted DefaultFont ]} ∅ [].

(** * Properties *)

(** ** The monad *)

Ltac mstep := unfold mbind, M_bind, mret, M_ret; simpl.

Lemma bind_return {A B} (c : M A) (k : A → M B) w a w' :
  c w = Return a w' → (c ≫= k) w = k a w'.
Proof. intros H. unfold mbind, M_bind. by rewrite H. Qed.

Lemma bind_raise {A B} (c : M A) (k : A → M B) w e w' :
  c w = Raise e w' → (c ≫= k) w = Raise e w'.
Proof. intros H. unfold mbind, M_bind. by rewrite H. Qed.

Lemma for_each_cons {A} (x : A) xs body w w' :
  body x w = Return () w' → for_each (x :: xs) body w = for_each xs body w'.
Proof. intros H. simpl. by rewrite (bind_return _ _ _ _ _ H). Qed.

(** ** Paths *)

Section paths.
Import os.path.

Lemma append_cons (x : ascii) (a b : string) : String x a +:+ b = String x (a +:+ b).
Proof. reflexivity. Qed.

Lemma append_nil_l (b : string) : "" +:+ b = b.
Proof. reflexivity. Qed.

Lemma append_assoc (a b c : string) : (a +:+ b) +:+ c = a +:+ (b +:+ c).
Proof.
  induction a as [|x a IH]; [done|]. by rewrite !append_cons, IH.
Qed.

Lemma append_length (a b : string) :
  String.length (a +:+ b) = (String.length a + String.length b)%nat.
Proof.
  induction a as [|x a IH]; [done|]. rewrite append_cons. simpl. by rewrite IH.
Qed.

Lemma has_sep_append a b : has_sep (a +:+ b) = has_sep a || has_sep b.
Proof.
  induction a as [|x a IH]; [done|]. rewrite append_cons. simpl.
  by rewrite IH, orb_assoc.
Qed.

Lemma all_sep_append a b : all_sep (a +:+ b) = all_sep a && all_sep b.
Proof.
  induction a as [|x a IH]; [done|]. rewrite append_cons. simpl.
  by rewrite IH, andb_assoc.
Qed.

Lemma endswith_sep_append a b :
  b ≠ "" → endswith_sep (a +:+ b) = endswith_sep b.
Proof.
  intros Hb. induction a as [|x a IH]; [done|].
  rewrite append_cons. simpl. rewrite IH.
  destruct (a +:+ b) eqn:E; [|done].
  destruct a; [by rewrite append_nil_l in E | by rewrite append_cons in E].
Qed.

(** A name neither is empty nor holds a separator. *)
Lemma is_name_spec n :
  Observe.is_name n = true ↔ n ≠ "" ∧ has_sep n = false.
Proof.
  unfold Observe.is_name. rewrite andb_true_iff, !negb_true_iff, bool_decide_eq_false.
  done.
Qed.

(** Joining a name to a directory appends it to the directory's prefix. *)
Lemma join_name d n : Observe.is_name n = true → join d n = join d "" +:+ n.
Proof.
  intros [Hne Hsep]%is_name_spec. destruct n as [|c r]; [done|].
  simpl in Hsep. apply orb_false_iff in Hsep as [Hc _]. unfold join. rewrite Hc.
  destruct (bool_decide (d = "") || endswith_sep d); [done|].
  by rewrite append_assoc.
Qed.

Lemma output_dir_eq file : output_dir file = join (dirname file) "" +:+ "icons".
Proof. unfold output_dir. by apply join_name. Qed.

Lemma output_dir_nonempty file : output_dir file ≠ "".
Proof.
  rewrite output_dir_eq. intros H%(f_equal String.length).
  rewrite append_length in H. simpl in H. lia.
Qed.

Lemma output_dir_endswith file : endswith_sep (output_dir file) = false.
Proof. rewrite output_dir_eq. by rewrite endswith_sep_append. Qed.

Lemma output_dir_all_sep file : all_sep (output_dir file) = false.
Proof. rewrite output_dir_eq, all_sep_append. simpl. apply andb_false_r. Qed.

(** Inside the output directory a name sits right after one separator. *)
Lemma join_output_dir file n :
  Observe.is_name n = true →
  join (output_dir file) n = output_dir file +:+ String sep n.
Proof.
  intros Hn. rewrite (join_name _ _ Hn). unfold join at 1.
  rewrite output_dir_endswith, orb_false_r.
  rewrite bool_decide_eq_false_2 by apply output_dir_nonempty.
  by rewrite append_assoc.
Qed.

Lemma head_append_name d n :
  has_sep n = false → head (d +:+ String sep n) = d +:+ String sep "".
Proof.
  intros Hn. induction d as [|x d IH].
  - rewrite append_nil_l. simpl. by rewrite Hn.
  - rewrite !append_cons. simpl. rewrite has_sep_append. simpl.
    rewrite orb_true_r. by rewrite IH.
Qed.

Lemma rstrip_append_sep d :
  d ≠ "" → endswith_sep d = false → rstrip (d +:+ String sep "") = d.
Proof.
  induction d as [|x d IH]; [done|]. intros _ Hend.
  rewrite append_cons. simpl. destruct d as [|y d].
  - rewrite append_nil_l. simpl in *. by rewrite Hend.
  - rewrite IH by done. rewrite bool_decide_eq_false_2 by done.
    by rewrite andb_false_r.
Qed.

(** The directory of an entry of the output directory is that directory. *)
Lemma dirname_join_output_dir file n :
  Observe.is_name n = true →
  dirname (join (output_dir file) n) = output_dir file.
Proof.
  intros Hn. rewrite (join_output_dir _ _ Hn).
  apply is_name_spec in Hn as [_ Hsep].
  unfold dirname. rewrite (head_append_name _ _ Hsep).
  rewrite all_sep_append, output_dir_all_sep. simpl.
  rewrite bool_decide_eq_true_2.
  - simpl. apply rstrip_append_sep; [apply output_dir_nonempty | apply output_dir_endswith].
  - intros H%(f_equal String.length). rewrite append_length in H. simpl in H. lia.
Qed.

Lemma join_output_dir_ne file n :
  Observe.is_name n = true → join (output_dir file) n ≠ output_dir file.
Proof.
  intros Hn. rewrite (join_output_dir _ _ Hn).
  intros H%(f_equal String.length). rewrite append_length in H. simpl in H. lia.
Qed.

Lemma join_output_dir_inj file n1 n2 :
  Observe.is_name n1 = true → Observe.is_name n2 = true →
  join (output_dir file) n1 = join (output_dir file) n2 → n1 = n2.
Proof.
  intros H1 H2. rewrite !join_output_dir by done.
  intros H%String.app_inj. by injection H.
Qed.
End paths.

(** ** Layout *)

(** Letters set [spacing] apart around a centre [c], the first one half the
    total width to the left of it, as lines 46-53 do: the positions mirror
    each other about [c] as soon as the total width is even. *)
Section layout.
Variables (c spacing count : Z).
Hypothesis even_total : Z.even (spacing * (count - 1)) = true.

Lemma layout_symmetric i :
  (c - (spacing * (count - 1)) `div` 2 + i * spacing)
  + (c - (spacing * (count - 1)) `div` 2 + (count - 1 - i) * spacing)
  = 2 * c.
Proof.
  apply Z.even_spec in even_total as [k Hk]. rewrite Hk.
  rewrite (Z.mul_comm 2 k), Z.div_mul by done. lia.
Qed.
End layout.

(** ** The operations of [os] and Pillow *)

Section operations.
Context (fn : string → option string) (o : list string).
Implicit Types (h : gmap nat image) (f : gmap string node).


Lemma draw_spec dr op h f im :
  h !! ImageDraw.target dr = Some im →
  ImageDraw.draw dr op (World fn h f o)
  = Return () (World fn (<[ImageDraw.target dr := im_draw op im]> h) f o).
Proof. intros Hl. unfold ImageDraw.draw. simpl. by rewrite Hl. Qed.

Lemma save_spec l p h f im :
  h !! l = Some im → os.parent_exists f p = true → os.isdir f p = false →
  Image.save l p "PNG" (World fn h f o)
  = Return () (World fn h (<[p := File (PNG im)]> f) o).
Proof.
  intros Hl Hp Hd. unfold Image.save, deref. mstep. rewrite Hl.
  unfold os.write_file. simpl. rewrite Hp. simpl.
  unfold os.isdir in Hd. by destruct (f !! p) as [[|c]|].
Qed.

Lemma resize_spec l n flt h f im :
  h !! l = Some im → 1 ≤ n →
  Image.resize l (n, n) flt (World fn h f o)
  = Return (fresh (dom h))
      (World fn (<[fresh (dom h) := Raster (im_mode im) n n (Resample im flt) []]> h) f o).
Proof.
  intros Hl Hn. unfold Image.resize, deref. mstep. rewrite Hl.
  by rewrite (proj2 (Z.ltb_ge n 1)) by done.
Qed.

Lemma fresh_lookup h : h !! fresh (dom h) = None.
Proof. apply not_elem_of_dom, is_fresh. Qed.
End operations.

(** ** Painting *)

Section painting.
Context (fn : string → option string) (o : list string).
Implicit Types (h : gmap nat image) (f : gmap string node).

Lemma acquire_font_spec h f :
  acquire_font (World fn h f o) = Return (fallback_chain fn candidates 280) (World fn h f o).
Proof.
  unfold acquire_font, try_except, ImageFont.truetype, ImageFont.load_default. simpl.
  destruct (fn "/System/Library/Fonts/Helvetica.ttc"); [reflexivity|]. simpl.
  destruct (fn "/System/Library/Fonts/Avenir.ttc"); reflexivity.
Qed.

Lemma draw_letter_spec dr fnt i letter color r g b h f im :
  h !! ImageDraw.target dr = Some im →
  hex_digits 0 (slice color 1 3) = Some r →
  hex_digits 0 (slice color 3 5) = Some g →
  hex_digits 0 (slice color 5 7) = Some b →
  slice color 1 3 ≠ "" → slice color 3 5 ≠ "" → slice color 5 7 ≠ "" →
  draw_letter dr fnt (i, (letter, color)) (World fn h f o)
  = Return ()
      (World fn
         (<[ImageDraw.target dr :=
              im_draw (Text (letter_x i, y_pos) letter (r, g, b, 255) fnt "mm")
                (im_draw (Text (letter_x i + 4, y_pos + 4) letter (0, 0, 0, 128) fnt "mm")
                   im)]> h) f o).
Proof.
  intros Hl Hr Hg Hb Nr Ng Nb. unfold draw_letter, ImageDraw.text.
  rewrite (bind_return _ _ _ _ _ (draw_spec fn o dr _ h f im Hl)).
  unfold int16. rewrite Hr, Hg, Hb.
  destruct (slice color 1 3); [done|].
  destruct (slice color 3 5); [done|].
  destruct (slice color 5 7); [done|].
  mstep. erewrite draw_spec by apply lookup_insert_eq. by rewrite insert_insert_eq.
Qed.

Lemma new_spec mode wd ht c h f :
  0 ≤ wd → 0 ≤ ht →
  Image.new mode (wd, ht) c (World fn h f o)
  = Return (fresh (dom h))
      (World fn (<[fresh (dom h) := Raster mode wd ht (Solid c) []]> h) f o).
Proof.
  intros Hw Hh. unfold Image.new.
  by rewrite (proj2 (Z.ltb_ge wd 0)), (proj2 (Z.ltb_ge ht 0)).
Qed.

Lemma paint_spec h f :
  paint (World fn h f o)
  = Return (fresh (dom h))
      (World fn (<[fresh (dom h) := painted (fallback_chain fn candidates 280)]> h) f o).
Proof.
  unfold paint. set (l := fresh (dom h)). set (fnt := fallback_chain _ _ _).
  erewrite bind_return by (by apply new_spec).
  unfold ImageDraw.ellipse.
  erewrite bind_return by (apply draw_spec, lookup_insert_eq).
  rewrite insert_insert_eq.
  erewrite bind_return by apply acquire_font_spec.
  erewrite bind_return; [reflexivity|].
  unfold enumerate, letters. cbn [enumerate_from].
  repeat (erewrite for_each_cons;
          [| eapply draw_letter_spec;
             [apply lookup_insert_eq | reflexivity | reflexivity | reflexivity
             | done | done | done ] ];
          rewrite insert_insert_eq).
  reflexivity.
Qed.
End painting.

(** ** Exporting *)

Section exporting.
Context (fn : string → option string) (o : list string) (file : string).
Implicit Types (h : gmap nat image) (f : gmap string node).

Let out := output_dir file.
Let target (n : string) := os.path.join out n.

Lemma isdir_insert_file f p q c :
  os.isdir f q = false → os.isdir (<[p := File c]> f) q = false.
Proof.
  unfold os.isdir. intros H. rewrite lookup_insert. by case_decide.
Qed.

Lemma isdir_insert_other f p q v :
  p ≠ q → os.isdir (<[p := v]> f) q = os.isdir f q.
Proof. intros H. unfold os.isdir. by rewrite lookup_insert_ne. Qed.

Lemma parent_exists_target f n :
  Observe.is_name n = true → os.isdir f out = true →
  os.parent_exists f (target n) = true.
Proof.
  intros Hn Hd. unfold os.parent_exists, target, out.
  rewrite dirname_join_output_dir by done. fold out. rewrite Hd. apply orb_true_r.
Qed.

Lemma export_size_spec img n base h f :
  h !! img = Some base → 1 ≤ n → Observe.is_name (icon_file_name n) = true →
  os.isdir f out = true → os.isdir f (target (icon_file_name n)) = false →
  export_size img out n (World fn h f o)
  = Return ()
      (World fn (<[fresh (dom h) := resized base n]> h)
         (<[target (icon_file_name n) := File (PNG (resized base n))]> f) o).
Proof.
  intros Hl Hn Hname Hout Ht. unfold export_size.
  erewrite bind_return by (by apply resize_spec).
  apply save_spec; [apply lookup_insert_eq | by apply parent_exists_target | done].
Qed.

(** The loop of lines 75-77 over any list of sizes with distinct, proper
    file names: the store only grows, every size gets its file, and no
    other path is touched. *)
Lemma export_loop_spec img base ns : ∀ h f,
  h !! img = Some base →
  Forall (λ n, 1 ≤ n ∧ Observe.is_name (icon_file_name n) = true) ns →
  NoDup (icon_file_name <$> ns) →
  os.isdir f out = true →
  Forall (λ n, os.isdir f (target (icon_file_name n)) = false) ns →
  ∃ h' f',
    for_each ns (export_size img out) (World fn h f o) = Return () (World fn h' f' o)
    ∧ h ⊆ h'
    ∧ Forall (λ n, ∃ l, h !! l = None ∧ h' !! l = Some (resized base n)) ns
    ∧ Forall (λ n, f' !! target (icon_file_name n) = Some (File (PNG (resized base n)))) ns
    ∧ (∀ p, p ∉ (target ∘ icon_file_name <$> ns) → f' !! p = f !! p).
Proof.
  induction ns as [|n ns IH]; intros h f Hl Hns Hdup Hout Ht.
  - exists h, f. by repeat split.
  - apply Forall_cons in Hns as [[Hn Hname] Hns].
    apply Forall_cons in Ht as [Ht Hts].
    rewrite fmap_cons in Hdup. apply NoDup_cons in Hdup as [Hnotin Hdup].
    set (l := fresh (dom h)).
    set (t := target (icon_file_name n)).
    assert (Hfresh : h !! l = None) by apply fresh_lookup.
    assert (Hne : l ≠ img) by (intros E; rewrite E in Hfresh; congruence).
    destruct (IH (<[l := resized base n]> h) (<[t := File (PNG (resized base n))]> f))
      as (h' & f' & Hrun & Hsub & Hnew & Hfiles & Hrest).
    + by rewrite lookup_insert_ne.
    + done.
    + done.
    + rewrite isdir_insert_other; [done|]. by apply join_output_dir_ne.
    + eapply Forall_impl; [exact Hts|]. intros m Hm. by apply isdir_insert_file.
    + exists h', f'. split; [|split; [|split; [|split]]].
      * erewrite for_each_cons; [exact Hrun|]. by apply export_size_spec.
      * etrans; [|exact Hsub]. by apply insert_subseteq.
      * apply Forall_cons. split.
        -- exists l. split; [done|].
           eapply lookup_weaken; [|exact Hsub]. apply lookup_insert_eq.
        -- eapply Forall_impl; [exact Hnew|]. intros m (l' & Hl1 & Hl2).
           exists l'. split; [|done].
           apply lookup_insert_None in Hl1. tauto.
      * apply Forall_cons. split; [|done].
        rewrite Hrest; [apply lookup_insert_eq|].
        intros (m & Heq & Hm)%list_elem_of_fmap. cbv [compose] in Heq.
        apply Hnotin. apply list_elem_of_fmap. exists m. split; [|done].
        rewrite Forall_forall in Hns. destruct (Hns m Hm) as [_ Hmname].
        by apply (join_output_dir_inj file).
      * intros p Hp. rewrite fmap_cons in Hp. apply not_elem_of_cons in Hp as [Hp1 Hp2].
        rewrite Hrest by done. by rewrite lookup_insert_ne.
Qed.
End exporting.

(** ** The names of the icons *)

Lemma sizes_ok :
  Forall (λ n, 1 ≤ n ∧ Observe.is_name (icon_file_name n) = true) sizes.
Proof. unfold sizes. repeat constructor; by vm_compute. Qed.


Lemma icon_names_NoDup : NoDup icon_names.
Proof. apply (bool_decide_unpack _). by vm_compute. Qed.

Lemma icon_file_names_NoDup : NoDup (icon_file_name <$> sizes).
Proof. pose proof icon_names_NoDup as H. by apply NoDup_cons in H as [_ H]. Qed.

Lemma icon_png_not_sized : "icon.png" ∉ icon_file_name <$> sizes.
Proof. pose proof icon_names_NoDup as H. by apply NoDup_cons in H as [H _]. Qed.


(** ** The export and the whole run *)

Section run.
Context (fn : string → option string) (file : string).
Implicit Types (h : gmap nat image) (f : gmap string node).

Let out := output_dir file.
Let target (n : string) := os.path.join out n.

Lemma target_icon_png_not_sized :
  target "icon.png" ∉ (target ∘ icon_file_name <$> sizes).
Proof.
  intros (m & Heq & Hm)%list_elem_of_fmap. cbv [compose] in Heq.
  apply icon_png_not_sized. apply list_elem_of_fmap. exists m. split; [|done].
  pose proof sizes_ok as Hs. rewrite Forall_forall in Hs. destruct (Hs m Hm) as [_ Hn].
  by apply (join_output_dir_inj file).
Qed.



(** What [writable] rules out is fatal: with a regular file in the place of
    the output directory the run ends in [FileExistsError], nothing written. *)
Lemma run_blocked f c :
  f !! out = Some (File c) →
  ∃ w, run file fn f = Raise FileExistsError w ∧ fs w = f.
Proof.
  intros Hout. unfold run, main.
  erewrite bind_return by apply paint_spec.
  set (w := World fn _ f []). exists w. split; [|reflexivity].
  apply bind_raise. unfold os.makedirs, w. cbn [fs]. fold out. by rewrite Hout.
Qed.
End run.

(** ** Directory listings *)

Lemma strip_prefix_spec pre s n :
  Observe.strip_prefix pre s = Some n ↔ s = pre +:+ n.
Proof.
  revert s. induction pre as [|a pre IH]; intros s; simpl.
  - rewrite append_nil_l. split; congruence.
  - rewrite append_cons. destruct s as [|b s]; [done|]. case_bool_decide as E.
    + subst b. rewrite IH. split; congruence.
    + split; congruence.
Qed.


(** * The properties of the specification *)

Import Observe.

(** What [paint] returns is a reference to the painted canvas. *)
Lemma paint_canvas w :
  ∃ img w',
    paint w = Return img w'
    ∧ heap w' !! img = Some (painted (fallback_chain (fonts w) candidates 280))
    ∧ fs w' = fs w.
Proof.
  destruct w as [fn h f o]. eexists _, _. split; [apply paint_spec|].
  split; [apply lookup_insert_eq | done].
Qed.

(** C2: with canvas size 1024, spacing 200 and four letters, the glyphs are
    drawn at the canvas centre plus -300, -100, +100 and +300 horizontally,
    that is at x = 212, 412, 612 and 812, and all four at the height
    centre - 20 = 492. *)
Theorem glyph_centres w :
  size = 1024 ∧ letter_spacing = 200 ∧ len letters = 4
  ∧ letter_x <$> [0; 1; 2; 3] = [212; 412; 612; 812]
  ∧ ∃ img w' im,
      paint w = Return img w' ∧ heap w' !! img = Some im
      ∧ (at_xy ∘ snd <$> pairs (text_calls im))
        = ((λ dx, (center + dx, center - 20)) <$> [-300; -100; 100; 300])
      ∧ (at_xy ∘ snd <$> pairs (text_calls im))
        = [(212, 492); (412, 492); (612, 492); (812, 492)].
Proof.
  repeat split; try reflexivity.
  destruct (paint_canvas w) as (img & w' & Hrun & Him & _).
  eexists img, w', _. repeat split; [exact Hrun | exact Him | reflexivity | reflexivity].
Qed.

(** C3: the x-positions of the letters are symmetric about the horizontal
    centre of the canvas: for every index [i] of a letter, the position of
    letter [i] plus that of letter [count - 1 - i] is twice the centre. *)
Theorem letter_positions_symmetric (i : Z) :
  0 ≤ i < len letters →
  letter_x i + letter_x (len letters - 1 - i) = 2 * center.
Proof.
  intros _. unfold letter_x, start_x, total_width.
  by apply (layout_symmetric center letter_spacing (len letters)).
Qed.

Lemma letter_positions_symmetric_witness :
  0 ≤ 1 < len letters ∧ letter_x 1 + letter_x (len letters - 1 - 1) = 2 * center.
Proof.
  assert (H : 0 ≤ 1 < len letters) by (by vm_compute).
  split; [exact H | exact (letter_positions_symmetric 1 H)].
Defined.

(** C7: for each letter and colour, in the order of the list, a shadow is
    drawn first, at the position of the letter shifted by exactly (+4, +4),
    in black of alpha 128 (50 % opacity); then the letter is drawn at the
    unshifted position in its own colour; both calls anchor the text at its
    middle. *)
Theorem shadow_then_glyph w :
  ∃ img w' im,
    paint w = Return img w' ∧ heap w' !! img = Some im
    ∧ Forall2
        (λ '(i, (letter, color)) '(shadow, letter_call),
           glyph shadow = letter ∧ glyph letter_call = letter
           ∧ at_xy letter_call = (letter_x i, y_pos)
           ∧ at_xy shadow = ((at_xy letter_call).1 + 4, (at_xy letter_call).2 + 4)
           ∧ fill shadow = (0, 0, 0, 128) ∧ opacity_percent 128 = 50
           ∧ hex_rgba color = Some (fill letter_call)
           ∧ anchored shadow = "mm" ∧ anchored letter_call = "mm"
           ∧ in_font shadow = in_font letter_call)
        (enumerate letters) (pairs (text_calls im)).
Proof.
  destruct (paint_canvas w) as (img & w' & Hrun & Him & _).
  eexists img, w', _. split; [exact Hrun|]. split; [exact Him|].
  unfold enumerate, letters. repeat constructor.
Qed.

(** C10: the fill of each letter is the decoding of its hex constant with
    alpha 255: L (239, 68, 68, 255), A (234, 179, 8, 255), M (34, 197, 94,
    255), A (168, 85, 247, 255). *)
Theorem glyph_fills w :
  (λ '(letter, color), (letter, hex_rgba color)) <$> letters
  = [ ("L", Some (239, 68, 68, 255)); ("A", Some (234, 179, 8, 255));
      ("M", Some (34, 197, 94, 255)); ("A", Some (168, 85, 247, 255)) ]
  ∧ ∃ img w' im,
      paint w = Return img w' ∧ heap w' !! img = Some im
      ∧ ((λ c, (glyph c, fill c)) ∘ snd <$> pairs (text_calls im))
        = [ ("L", (239, 68, 68, 255)); ("A", (234, 179, 8, 255));
            ("M", (34, 197, 94, 255)); ("A", (168, 85, 247, 255)) ].
Proof.
  split; [reflexivity|].
  destruct (paint_canvas w) as (img & w' & Hrun & Him & _).
  eexists img, w', _. split; [exact Hrun|]. split; [exact Him | reflexivity].
Qed.

(** C4, as stated, fails: on a system where Helvetica.ttc and Avenir.ttc do
    not open and every other font file does, the script takes the built-in
    font, while a chain of three distinct candidates would open one of them.
    There is no third candidate. *)
Lemma font_chain_not_three_candidates :
  acquire_font (World all_but_candidates ∅ ∅ [])
  = Return DefaultFont (World all_but_candidates ∅ ∅ [])
  ∧ ¬ three_candidate_chain.
Proof.
  split; [reflexivity|].
  intros (c1 & c2 & c3 & points & Hdup & Hchain).
  specialize (Hchain (World all_but_candidates ∅ ∅ [])).
  rewrite acquire_font_spec in Hchain. injection Hchain as Hchain.
  change (fallback_chain all_but_candidates candidates 280) with DefaultFont in Hchain.
  simpl in Hchain. unfold all_but_candidates in Hchain.
  repeat case_bool_decide; try discriminate.
  unfold candidates in *.
  repeat match goal with
         | H : _ ∈ _ :: _ |- _ => apply elem_of_cons in H as [->|H]
         | H : _ ∈ [] |- _ => by apply elem_of_nil in H
         end;
    repeat match goal with
           | H : NoDup (_ :: _) |- _ => apply NoDup_cons in H as [? H]
           end;
    set_solver.
Qed.

(** C4, amended: the chain has two candidate font files, Helvetica.ttc then
    Avenir.ttc, both at 280 points; the first that opens is the font, and the
    built-in default font is used exactly when neither opens.  Acquiring the
    font never raises and changes nothing. *)
Theorem font_chain_two_candidates w :
  length candidates = 2%nat
  ∧ acquire_font w = Return (fallback_chain (fonts w) candidates 280) w
  ∧ (fallback_chain (fonts w) candidates 280 = DefaultFont
     ↔ Forall (λ p, fonts w p = None) candidates).
Proof.
  split; [reflexivity|]. split.
  - destruct w. apply acquire_font_spec.
  - unfold candidates. simpl. rewrite !Forall_cons, Forall_nil.
    destruct (fonts w "/System/Library/Fonts/Helvetica.ttc");
      destruct (fonts w "/System/Library/Fonts/Avenir.ttc");
      (split; [discriminate || done | intros (? & ? & _); done]).
Qed.



(** C9: the loop that exports the sizes only reads the base canvas.  Every
    pass allocates a new image of the target size, resampled from the base;
    the base stays as it was in the store, as does every object that was
    there, and the file [icon.png] is not written again. *)
Theorem export_reads_base_only file fn o img base
    (h : gmap nat image) (f : gmap string node) :
  h !! img = Some base →
  os.isdir f (output_dir file) = true →
  Forall (λ n, os.isdir f (os.path.join (output_dir file) (icon_file_name n)) = false)
    sizes →
  ∃ h' f',
    for_each sizes (export_size img (output_dir file)) (World fn h f o)
    = Return () (World fn h' f' o)
    ∧ h' !! img = Some base
    ∧ (∀ l, is_Some (h !! l) → h' !! l = h !! l)
    ∧ f' !! os.path.join (output_dir file) "icon.png"
      = f !! os.path.join (output_dir file) "icon.png"
    ∧ Forall
        (λ n, ∃ l im,
           h !! l = None ∧ h' !! l = Some im
           ∧ im = Raster (im_mode base) n n (Resample base LANCZOS) []
           ∧ im_size im = (n, n)
           ∧ f' !! os.path.join (output_dir file) (icon_file_name n) = Some (File (PNG im)))
        sizes.
Proof.
  intros Hl Hout Hts.
  destruct (export_loop_spec fn o file img base sizes h f Hl sizes_ok
              icon_file_names_NoDup Hout Hts)
    as (h' & f' & Hrun & Hsub & Hnew & Hfiles & Hrest).
  exists h', f'. split; [exact Hrun|]. split; [by eapply lookup_weaken|].
  split; [|split].
  - intros l [im Him]. rewrite Him. by eapply lookup_weaken.
  - apply Hrest, target_icon_png_not_sized.
  - rewrite Forall_forall in Hnew, Hfiles. apply Forall_forall. intros n Hn.
    destruct (Hnew n Hn) as (l & Hl1 & Hl2). exists l, (resized base n).
    repeat split; [done | done | by apply Hfiles].
Qed.

Lemma export_reads_base_only_witness :
  ∃ h' f',
    for_each sizes (export_size 0%nat (output_dir script_path))
      (World no_fonts {[ 0%nat := painted DefaultFont ]} icons_present [])
    = Return () (World no_fonts h' f' [])
    ∧ h' !! 0%nat = Some (painted DefaultFont)
    ∧ (∀ l, is_Some (({[ 0%nat := painted DefaultFont ]} : gmap nat image) !! l) →
            h' !! l = ({[ 0%nat := painted DefaultFont ]} : gmap nat image) !! l)
    ∧ f' !! os.path.join (output_dir script_path) "icon.png"
      = icons_present !! os.path.join (output_dir script_path) "icon.png"
    ∧ Forall
        (λ n, ∃ l im,
           ({[ 0%nat := painted DefaultFont ]} : gmap nat image) !! l = None
           ∧ h' !! l = Some im
           ∧ im = Raster (im_mode (painted DefaultFont)) n n
                    (Resample (painted DefaultFont) LANCZOS) []
           ∧ im_size im = (n, n)
           ∧ f' !! os.path.join (output_dir script_path) (icon_file_name n)
             = Some (File (PNG im)))
        sizes.
Proof.
  apply (export_reads_base_only script_path no_fonts [] 0%nat (painted DefaultFont)
           {[ 0%nat := painted DefaultFont ]} icons_present).
  - reflexivity.
  - reflexivity.
  - unfold sizes. repeat constructor.
Defined.










(** * Further properties of the script *)

(** ** File names of any size *)

Lemma pretty_N_char_not_sep x : os.path.is_sep (pretty_N_char x) = false.
Proof. unfold pretty_N_char. by repeat case_match. Qed.

Lemma has_sep_pretty_N_go x : ∀ s,
  os.path.has_sep (pretty_N_go x s) = os.path.has_sep s.
Proof.
  induction (N.lt_wf_0 x) as [x _ IH]; intros s.
  assert (x = 0 ∨ 0 < x)%N as [->|Hx] by lia.
  - by rewrite pretty_N_go_0.
  - rewrite pretty_N_go_step by done. rewrite IH by (by apply N.div_lt).
    simpl. by rewrite pretty_N_char_not_sep.
Qed.

Lemma has_sep_pretty_N (x : N) : os.path.has_sep (pretty x) = false.
Proof.
  unfold pretty, pretty_N. case_decide; [done|]. by rewrite has_sep_pretty_N_go.
Qed.

Lemma has_sep_str n : os.path.has_sep (str n) = false.
Proof.
  unfold str, pretty, pretty_Z. destruct n as [|p|p]; [done| |].
  - apply has_sep_pretty_N.
  - rewrite has_sep_append. simpl. apply has_sep_pretty_N.
Qed.

Lemma append_inj_r (a b c : string) : a +:+ c = b +:+ c → a = b.
Proof.
  intros H. assert (Hlen : String.length a = String.length b).
  { apply (f_equal String.length) in H. rewrite !append_length in H. lia. }
  revert b H Hlen. induction a as [|x a IH]; intros [|y b] H Hlen; try done.
  rewrite !append_cons in H. injection H as -> H. f_equal. apply IH; [done|].
  simpl in Hlen. lia.
Qed.

Lemma is_name_icon_file_name n : Observe.is_name (icon_file_name n) = true.
Proof.
  apply is_name_spec. split; [done|].
  unfold icon_file_name. rewrite !has_sep_append, has_sep_str. done.
Qed.

Lemma file_name_of_size_inj n m : icon_file_name n = icon_file_name m → n = m.
Proof.
  unfold icon_file_name. intros H%String.app_inj%append_inj_r.
  by apply (inj pretty) in H.
Qed.

(** ** The export loop over any sizes *)



Section any_sizes.
Context (fn : string → option string) (o : list string) (file : string).
Implicit Types (h : gmap nat image) (f : gmap string node).

Let out := output_dir file.
Let target (n : Z) := os.path.join out (icon_file_name n).





End any_sizes.

(** ** Every outcome of a run *)


Section outcomes.
Context (fn : string → option string) (file : string).
Implicit Types (h : gmap nat image) (f : gmap string node).

Let out := output_dir file.
Let icon_path := os.path.join out "icon.png".
Let target (n : Z) := os.path.join out (icon_file_name n).
Let base := painted (fallback_chain fn candidates 280).



End outcomes.

(** ** More on paths *)

Section more_paths.
Import os.path.

Lemma all_sep_endswith d : d ≠ "" → all_sep d = true → endswith_sep d = true.
Proof.
  induction d as [|x d IH]; [done|]. intros _ [Hx Hd]%andb_true_iff.
  simpl. destruct d as [|y d]; [done|]. by apply IH.
Qed.

Lemma rstrip_shape h :
  (rstrip h = "" ∧ all_sep h = true)
  ∨ (rstrip h ≠ "" ∧ endswith_sep (rstrip h) = false ∧ all_sep h = false).
Proof.
  induction h as [|x h IH]; [by left|]. simpl.
  destruct (is_sep x) eqn:Hx; simpl.
  - destruct IH as [[-> Hall]|(Hne & Hend & Hall)].
    + left. by rewrite bool_decide_eq_true_2.
    + right. rewrite bool_decide_eq_false_2 by done. rewrite Hall.
      repeat split; [done|]. simpl. by destruct (rstrip h).
  - right. repeat split; [done|]. simpl.
    destruct IH as [[-> Hall]|(Hne & Hend & Hall)]; [done|]. by destruct (rstrip h).
Qed.

(** What [dirname] returns is empty, or made of separators only, or does
    not end in a separator. *)
Lemma dirname_shape p :
  dirname p = ""
  ∨ (dirname p ≠ "" ∧ all_sep (dirname p) = true)
  ∨ (dirname p ≠ "" ∧ endswith_sep (dirname p) = false).
Proof.
  unfold dirname. destruct (decide (head p = "")) as [->|Hne]; [by left|].
  rewrite bool_decide_eq_true_2 by done. destruct (all_sep (head p)) eqn:Hall; simpl.
  - right. by left.
  - right. right. destruct (rstrip_shape (head p)) as [[_ H]|(H1 & H2 & _)]; [congruence|done].
Qed.

Lemma head_no_sep n : has_sep n = false → head n = "".
Proof.
  induction n as [|x n IH]; [done|]. simpl. intros [Hx Hn]%orb_false_iff.
  by rewrite Hn, Hx.
Qed.

Lemma head_append_no_sep d n : has_sep n = false → head (d +:+ n) = head d.
Proof.
  intros Hn. induction d as [|x d IH].
  - rewrite append_nil_l. by apply head_no_sep.
  - rewrite append_cons. simpl. rewrite has_sep_append, Hn, orb_false_r. by rewrite IH.
Qed.

Lemma head_endswith_sep d : endswith_sep d = true → head d = d.
Proof.
  induction d as [|x d IH]; [done|]. simpl. destruct d as [|y d].
  - intros ->. done.
  - intros Hd. rewrite IH by done.
    assert (has_sep (String y d) = true) as ->; [|done].
    clear IH. revert y Hd. induction d as [|z d IH]; intros y Hd; simpl in *.
    + by rewrite Hd.
    + rewrite (IH z Hd). apply orb_true_r.
Qed.

Lemma dirname_join_name d n :
  Observe.is_name n = true →
  d = "" ∨ (d ≠ "" ∧ all_sep d = true) ∨ (d ≠ "" ∧ endswith_sep d = false) →
  dirname (join d n) = d.
Proof.
  intros Hn Hd. pose proof Hn as [Hne Hsep]%is_name_spec.
  rewrite (join_name _ _ Hn). destruct Hd as [->|[[Hd Hall]|[Hd Hend]]].
  - simpl. rewrite append_nil_l. unfold dirname. by rewrite head_no_sep.
  - pose proof (all_sep_endswith d Hd Hall) as Hend.
    unfold join. rewrite Hend, orb_true_r.
    unfold dirname. rewrite head_append_no_sep, head_endswith_sep by done.
    by rewrite Hall, andb_false_r.
  - unfold join. rewrite Hend, orb_false_r, bool_decide_eq_false_2 by done.
    rewrite append_assoc. unfold dirname. rewrite append_cons, append_nil_l.
    rewrite (head_append_name _ _ Hsep).
    assert (Hall : all_sep d = false).
    { destruct (all_sep d) eqn:E; [|done]. by rewrite all_sep_endswith in Hend. }
    rewrite all_sep_append, Hall. simpl. rewrite bool_decide_eq_true_2.
    + simpl. by apply rstrip_append_sep.
    + intros H%(f_equal String.length). rewrite append_length in H. simpl in H. lia.
Qed.
End more_paths.

(** X1: the output directory lies in the directory of the script, whatever
    the path of the script. *)
Theorem output_dir_beside_script file :
  os.path.dirname (output_dir file) = os.path.dirname file.
Proof. unfold output_dir. apply dirname_join_name; [done | apply dirname_shape]. Qed.

(** X2: a script named without any directory writes into [icons], relative
    to the working directory. *)
Theorem output_dir_of_bare_name file :
  os.path.has_sep file = false → output_dir file = "icons".
Proof.
  intros H. unfold output_dir, os.path.dirname. by rewrite head_no_sep.
Qed.

Lemma output_dir_of_bare_name_witness : output_dir "generate_icon.py" = "icons".
Proof. apply (output_dir_of_bare_name "generate_icon.py"). reflexivity. Defined.


(** X3: two sizes share a file name only when they are the same size, so no
    export can overwrite the file of another size. *)
Theorem icon_file_name_inj n m : icon_file_name n = icon_file_name m ↔ n = m.
Proof. split; [apply file_name_of_size_inj | by intros ->]. Qed.

(** X4: whatever the size, the file name built for it is a plain name and the
    path it is saved under lies directly in the output directory. *)
Theorem icon_path_in_output_dir file n :
  is_name (icon_file_name n) = true
  ∧ os.path.dirname (os.path.join (output_dir file) (icon_file_name n)) = output_dir file
  ∧ entry_name (output_dir file) (os.path.join (output_dir file) (icon_file_name n))
    = Some (icon_file_name n).
Proof.
  pose proof (is_name_icon_file_name n) as Hn. split; [done|]. split.
  - by apply dirname_join_output_dir.
  - unfold entry_name. rewrite (join_name _ _ Hn).
    rewrite (proj2 (strip_prefix_spec _ _ (icon_file_name n))) by done. by rewrite Hn.
Qed.







(** ** Every outcome of a run, continued *)













(** ** Colour constants *)

Lemma int16_spec s w :
  int16 s w = match int16_value s with
              | Some n => Return n w
              | None => Raise ValueError w
              end.
Proof. unfold int16, int16_value. destruct s; [done|]. by destruct (hex_digits _ _). Qed.




Lemma substring_beyond n m s : (String.length s ≤ n)%nat → String.substring n m s = "".
Proof.
  revert n m. induction s as [|c s IH]; intros [|n] [|m]; simpl; try done; try lia.
  - intros H. apply IH. lia.
  - intros H. apply IH. lia.
Qed.




Lemma draw_letter_raises dr fnt i letter color w im :
  heap w !! ImageDraw.target dr = Some im →
  channels color = None →
  draw_letter dr fnt (i, (letter, color)) w
  = Raise ValueError
      (set_heap
         (<[ImageDraw.target dr :=
              im_draw (Text (letter_x i + 4, y_pos + 4) letter (0, 0, 0, 128) fnt "mm") im]>
            (heap w)) w).
Proof.
  intros Hl Hc. destruct w as [fn h f o]. cbn [heap] in Hl.
  unfold draw_letter, ImageDraw.text.
  rewrite (bind_return _ _ _ _ _ (draw_spec fn o dr _ h f im Hl)).
  unfold set_heap. cbn [heap fonts fs stdout]. unfold channels in Hc.
  destruct (int16_value (slice color 1 3)) as [r|] eqn:Hr;
    [|by apply bind_raise; rewrite int16_spec, Hr].
  erewrite bind_return by (by rewrite int16_spec, Hr).
  destruct (int16_value (slice color 3 5)) as [g|] eqn:Hg;
    [|by apply bind_raise; rewrite int16_spec, Hg].
  erewrite bind_return by (by rewrite int16_spec, Hg).
  destruct (int16_value (slice color 5 7)) as [b|] eqn:Hb; [done|].
  by apply bind_raise; rewrite int16_spec, Hb.
Qed.

Lemma channels_short color : (String.length color < 6)%nat → channels color = None.
Proof.
  intros Hlen. unfold channels.
  assert (int16_value (slice color 5 7) = None) as Hb.
  { unfold slice. by rewrite substring_beyond by lia. }
  destruct (int16_value (slice color 1 3)); [|done].
  destruct (int16_value (slice color 3 5)); [|done].
  simpl. by rewrite Hb.
Qed.



(** X16: a colour constant of fewer than six characters, such as a
    three-digit ['#fff'], is never accepted: its last slice is empty, and the
    loop body raises [ValueError] with only the shadow drawn. *)
Theorem short_color_rejected dr fnt i letter color w im :
  heap w !! ImageDraw.target dr = Some im →
  (String.length color < 6)%nat →
  draw_letter dr fnt (i, (letter, color)) w
  = Raise ValueError
      (set_heap
         (<[ImageDraw.target dr :=
              im_draw (Text (letter_x i + 4, y_pos + 4) letter (0, 0, 0, 128) fnt "mm") im]>
            (heap w)) w).
Proof. intros Hl Hlen. by apply draw_letter_raises, channels_short. Qed.

Lemma short_color_rejected_witness :
  draw_letter (ImageDraw.Draw 0%nat) DefaultFont (0, ("L", "#fff")) canvas_only
  = Raise ValueError
      (set_heap
         (<[ImageDraw.target (ImageDraw.Draw 0%nat) :=
              im_draw (Text (letter_x 0 + 4, y_pos + 4) "L" (0, 0, 0, 128) DefaultFont "mm")
                (painted DefaultFont)]> (heap canvas_only))
         canvas_only).
Proof.
  apply (short_color_rejected (ImageDraw.Draw 0%nat) DefaultFont 0 "L" "#fff"
           canvas_only (painted DefaultFont)).
  - reflexivity.
  - simpl. lia.
Defined.

(** ** Painting, from any world *)

(** X17: painting never fails, whatever fonts the system has and whatever the
    world holds.  It allocates one new object, the 1024 by 1024 RGBA canvas,
    and leaves every other object, the file system and the output alone. *)
Theorem paint_frame w :
  ∃ img w' im,
    paint w = Return img w'
    ∧ heap w !! img = None
    ∧ heap w' !! img = Some im
    ∧ im_mode im = "RGBA" ∧ im_size im = (size, size)
    ∧ (∀ l, l ≠ img → heap w' !! l = heap w !! l)
    ∧ fs w' = fs w ∧ stdout w' = stdout w ∧ fonts w' = fonts w.
Proof.
  destruct w as [fn h f o]. eexists _, _, _. split; [apply paint_spec|].
  cbn [heap fs stdout fonts]. split; [apply fresh_lookup|].
  split; [apply lookup_insert_eq|]. split; [done|]. split; [done|].
  split; [|done]. intros l Hl. by rewrite lookup_insert_ne.
Qed.

(** X18: every text on the canvas is set in one font, the one the fallback
    chain yields on this system. *)
Theorem letters_in_acquired_font w :
  ∃ img w' im fnt,
    paint w = Return img w' ∧ heap w' !! img = Some im
    ∧ acquire_font w = Return fnt w
    ∧ length (text_calls im) = 8%nat
    ∧ Forall (λ c, in_font c = fnt) (text_calls im).
Proof.
  destruct (paint_canvas w) as (img & w' & Hrun & Him & _).
  exists img, w', (painted (fallback_chain (fonts w) candidates 280)),
    (fallback_chain (fonts w) candidates 280).
  split; [exact Hrun|]. split; [exact Him|].
  split; [destruct w; apply acquire_font_spec|]. split; [reflexivity|].
  repeat constructor.
Qed.

(** X19: the backdrop is the first thing drawn, under every letter: a circle
    of radius 450 about the centre of the canvas, which lies within the
    canvas; and the anchor point of every text drawn after it, shadows
    included, lies inside that circle. *)
Theorem backdrop_under_letters w :
  ∃ img w' im rest,
    paint w = Return img w' ∧ heap w' !! img = Some im
    ∧ im_drawn im
      = Ellipse (center - radius, center - radius, center + radius, center + radius)
          (20, 20, 20, 255) (40, 40, 40, 255) 2 :: rest
    ∧ 0 ≤ center - radius ∧ center + radius ≤ size
    ∧ Forall
        (λ op, ∃ c, as_text op = Some c
                    ∧ ((at_xy c).1 - center) ^ 2 + ((at_xy c).2 - center) ^ 2 < radius ^ 2)
        rest.
Proof.
  destruct (paint_canvas w) as (img & w' & Hrun & Him & _).
  eexists img, w', _, _. split; [exact Hrun|]. split; [exact Him|].
  split; [reflexivity|]. split; [done|]. split; [done|].
  repeat (constructor; [eexists; split; [reflexivity | done]|]). constructor.
Qed.
